(** * Depot locations: travel-time cost model, Locations, Countries and
      nearest-neighbour tours (country.py)

    A shallow embedding of [country.py] and the proofs of its specification.

    Conventions of the embedding.
    - Python numbers ([int], [float], [bool] used as numbers) are read as the
      real numbers they denote: arithmetic is exact, so rounding, overflow,
      infinities and NaN are outside the model.
    - Python [str] is [string]; comparison is by character code, as in Python.
    - A call either returns, raises, or (for the [while] loop only) runs out of
      the fuel of the model: type [outcome].
    - A Python [set] of Locations is a duplicate-free list, duplicates being
      judged by [Location.__eq__], in insertion order; the order in which a
      set is iterated is shown not to matter ([trip_choice_order_free]).
    - The examples of [test_country.py] are replayed at the end. *)

From Stdlib Require Import Reals Lra Lia ZArith Bool Ascii String List Permutation Sorted.
Import ListNotations.

Set Implicit Arguments.

(** ** Python outcomes *)

Inductive exn : Type :=
| TypeError
| ValueError
| IndexError
| KeyError
| ZeroDivisionError.

Inductive outcome (A : Type) : Type :=
| Ok (a : A)
| Raise (e : exn)
| Timeout.

Arguments Ok {A} a.
Arguments Raise {A} e.
Arguments Timeout {A}.

Definition bind {A B : Type} (m : outcome A) (f : A -> outcome B) : outcome B :=
  match m with
  | Ok a => f a
  | Raise e => Raise e
  | Timeout => Timeout
  end.

Notation "x <- m ;; k" := (bind m (fun x => k))
  (at level 61, m at next level, right associativity).

(** [try: m except ValueError: raise ValueError(...)]: a ValueError is replaced
    by a ValueError, every other exception passes through. *)
Definition reraise_ValueError {A : Type} (m : outcome A) : outcome A :=
  match m with
  | Raise ValueError => Raise ValueError
  | other => other
  end.

(** ** Numbers and comparisons *)

Definition Rltb (x y : R) : bool := if Rlt_dec x y then true else false.
Definition Reqb (x y : R) : bool := if Req_dec_T x y then true else false.

(** A numeric argument that is a Python [int] or a Python [float]. *)
Inductive number : Type :=
| NInt (z : Z)
| NFloat (x : R).

(** [int(n)]: the identity on an int, truncation towards zero on a float. *)
Definition py_int (n : number) : Z :=
  match n with
  | NInt z => z
  | NFloat x => if Rle_dec 0 x then Int_part x else (- Int_part (- x))%Z
  end.

(** [math.sqrt]: a ValueError (math domain error) below zero. *)
Definition py_sqrt (x : R) : outcome R :=
  if Rlt_dec x 0 then Raise ValueError else Ok (sqrt x).

(** ** The built-in [sorted]

    [sorted] is stable and compares with [<] only; [lt a b] is [a < b] on the
    keys of the elements. *)
Section Sorted.
Variable A : Type.
Variable lt : A -> A -> bool.

Fixpoint insert (x : A) (l : list A) : list A :=
  match l with
  | [] => [x]
  | y :: l' => if lt y x then y :: insert x l' else x :: y :: l'
  end.

Definition py_sorted (l : list A) : list A := fold_right insert [] l.
End Sorted.

(** Tuple comparison [(a1, a2) < (b1, b2)]: the first position where the
    tuples differ (by [==]) decides (by [<]). *)
Section Tuple.
Variables K1 K2 : Type.
Variable eq1 : K1 -> K1 -> bool.
Variable lt1 : K1 -> K1 -> bool.
Variable lt2 : K2 -> K2 -> bool.

Definition tuple_lt (a b : K1 * K2) : bool :=
  if eq1 (fst a) (fst b) then lt2 (snd a) (snd b) else lt1 (fst a) (fst b).
End Tuple.

(** [(n, g) < (n', g')] on pairs of strings. *)
Definition pair_lt : string * string -> string * string -> bool :=
  tuple_lt String.eqb String.ltb String.ltb.

(** [(t, n, g) < (t', n', g')] with a number first. *)
Definition triple_lt : R * (string * string) -> R * (string * string) -> bool :=
  tuple_lt Reqb Rltb pair_lt.

(** ** Text normalisation: [' '.join(w.capitalize() for w in s.split())]

    Characters are 7-bit ASCII; other characters are left as they are. *)
Definition is_space (c : ascii) : bool :=
  let n := nat_of_ascii c in
  ((9 <=? n) && (n <=? 13) || (28 <=? n) && (n <=? 32))%nat.

Definition upper (c : ascii) : ascii :=
  let n := nat_of_ascii c in
  if ((97 <=? n) && (n <=? 122))%nat then ascii_of_nat (n - 32) else c.

Definition lower (c : ascii) : ascii :=
  let n := nat_of_ascii c in
  if ((65 <=? n) && (n <=? 90))%nat then ascii_of_nat (n + 32) else c.

Fixpoint str_map (f : ascii -> ascii) (s : string) : string :=
  match s with
  | EmptyString => EmptyString
  | String c s' => String (f c) (str_map f s')
  end.

Definition capitalize (w : string) : string :=
  match w with
  | EmptyString => EmptyString
  | String c w' => String (upper c) (str_map lower w')
  end.

Definition flush (word : string) (rest : list string) : list string :=
  match word with
  | EmptyString => rest
  | _ => word :: rest
  end.

(** [s.split()]: the maximal runs of non-blank characters. *)
Fixpoint split (s : string) (word : string) : list string :=
  match s with
  | EmptyString => flush word []
  | String c s' =>
      if is_space c then flush word (split s' EmptyString)
      else split s' (word ++ String c EmptyString)
  end.

Definition proper (s : string) : string :=
  String.concat " " (map capitalize (split s EmptyString)).

(** ** The cost model *)

Definition default_speed : R := 4.75.

Definition travel_time (distance different_regions : R)
    (locations_in_dest_region : number) (speed : R) : outcome R :=
  if Rlt_dec distance 0 then Raise ValueError
  else if negb (Reqb different_regions 0 || Reqb different_regions 1)
  then Raise ValueError
  else
    let locations_in_dest_region := Z.max 1 (py_int locations_in_dest_region) in
    if Reqb speed 0 then Raise ZeroDivisionError
    else Ok ((1 / 3600) * (distance / speed)
             * (1 + (different_regions * IZR locations_in_dest_region) / 10))%R.

(** ** Locations *)

Module Location.

Record t : Type := mk {
  name : string;
  region : string;
  r : R;
  theta : R;
  depot : bool
}.

Definition settlement (self : t) : bool := negb (depot self).

End Location.

(** The Python values that reach the functions below. *)
Inductive pyval : Type :=
| PyNone
| PyBool (b : bool)
| PyInt (z : Z)
| PyFloat (x : R)
| PyStr (s : string)
| PyLoc (l : Location.t).

Section Runtime.
(** The interpreter's parser of numeric text ([float(s)] on a [str]) and its
    hash of a [str]. *)
Variable parse_float : string -> option R.
Variable str_hash : string -> Z.

(** [float(v)] *)
Definition py_float (v : pyval) : outcome R :=
  match v with
  | PyFloat x => Ok x
  | PyInt z => Ok (IZR z)
  | PyBool b => Ok (if b then 1 else 0)%R
  | PyStr s =>
      match parse_float s with
      | Some x => Ok x
      | None => Raise ValueError
      end
  | PyNone => Raise TypeError
  | PyLoc _ => Raise TypeError
  end.

(** [Location.__init__]: the Location and the warnings issued. *)
Definition Location_init (name region r theta depot : pyval)
  : outcome (Location.t * list string) :=
  match depot with
  | PyBool depot =>
      r <- reraise_ValueError (py_float r) ;;
      if Rltb r 0 then Raise ValueError
      else
        theta <- reraise_ValueError (py_float theta) ;;
        if Rltb theta (- PI) || Rltb PI theta then Raise ValueError
        else
          match name, region with
          | PyStr name, PyStr region =>
              let proper_name := proper name in
              let proper_region := proper region in
              let w1 :=
                if negb (String.eqb proper_name name)
                then [ ("Name was capitalized from '" ++ name ++ "' to '"
                        ++ proper_name ++ "'")%string;
                       ("The name should have each word in them capitalised, "
                        ++ "and remaining characters in each word should be lowercase.")%string ]
                else [] in
              let w2 :=
                if negb (String.eqb proper_region region)
                then [ ("Region was capitalized from '" ++ region ++ "' to '"
                        ++ proper_region ++ "'")%string;
                       ("The region should have each word in them capitalised, "
                        ++ "and remaining characters in each word should be lowercase.")%string ]
                else [] in
              Ok (Location.mk proper_name proper_region r theta depot, w1 ++ w2)
          | _, _ => Raise TypeError
          end
  | _ => Raise TypeError
  end.

(** [Location.__hash__] *)
Definition Location_hash (self : Location.t) : Z :=
  str_hash (Location.name self ++ Location.region self)%string.
End Runtime.

Module LocationOps.
Import Location.

(** [Location.distance_to] *)
Definition distance_to (self : t) (other : pyval) : outcome R :=
  match other with
  | PyLoc other =>
      py_sqrt (r self ^ 2 + r other ^ 2
               - 2 * r self * r other * cos (theta self - theta other))%R
  | _ => Raise ValueError
  end.

(** [(self.name, self.region) == (other.name, other.region)] *)
Definition eqb (self other : t) : bool :=
  String.eqb (name self) (name other) && String.eqb (region self) (region other).

(** [Location.__eq__]; [None] is [NotImplemented]. *)
Definition eq (self : t) (other : pyval) : option bool :=
  match other with
  | PyLoc other => Some (eqb self other)
  | _ => None
  end.

(** [self == other]: with [NotImplemented] on both sides Python compares
    identities, and a Location is no other kind of value. *)
Definition equals (self : t) (other : pyval) : bool :=
  match eq self other with
  | Some b => b
  | None => false
  end.

(** [x in seq] *)
Definition contains (x : t) (seq : list t) : bool :=
  existsb (fun e => eqb e x) seq.
End LocationOps.

(** ** Sets of Locations *)

Module LocSet.
Import Location LocationOps.

Definition add (x : t) (s : list t) : list t :=
  if contains x s then s else s ++ [x].

Definition add_all (s : list t) (l : list t) : list t :=
  fold_left (fun s x => add x s) l s.

(** [set(l)] *)
Definition of_list (l : list t) : list t := add_all [] l.

(** [s.discard(x)] *)
Definition discard (x : t) (s : list t) : list t :=
  filter (fun e => negb (eqb e x)) s.

(** [s.remove(x)]; [None] is KeyError. *)
Definition remove (x : t) (s : list t) : option (list t) :=
  if contains x s then Some (discard x s) else None.
End LocSet.

(** ** Countries *)

Module Country.
Import Location LocationOps.

Record t : Type := mk { all_locations : list Location.t }.

(** [Country.__init__] *)
Definition init (list_of_locations : list Location.t) : outcome t :=
  let location_set := LocSet.of_list list_of_locations in
  if negb (Nat.eqb (List.length location_set) (List.length list_of_locations))
  then Raise ValueError
  else Ok (mk list_of_locations).

Definition settlements (self : t) : list Location.t :=
  filter (fun loc => negb (depot loc)) (all_locations self).

Definition n_settlements (self : t) : nat := List.length (settlements self).

Definition depots (self : t) : list Location.t :=
  filter (fun loc => depot loc) (all_locations self).

Definition n_depots (self : t) : nat := List.length (depots self).

(** [Country.travel_time] *)
Definition travel_time (self : t) (start_location end_location : Location.t)
  : outcome R :=
  if negb (contains start_location (all_locations self)) then Raise ValueError
  else if negb (contains end_location (all_locations self)) then Raise ValueError
  else
    distance <- distance_to start_location (PyLoc end_location) ;;
    let different_regions : R :=
      if negb (String.eqb (region start_location) (region end_location))
      then 1%R else 0%R in
    let locations_in_dest_region :=
      List.length
        (filter (fun loc => String.eqb (region loc) (region end_location))
           (all_locations self)) in
    travel_time distance different_regions
      (NInt (Z.of_nat locations_in_dest_region)) default_speed.

(** An element of [potential_locations]: a Location or an index into
    [settlements]. *)
Inductive candidate : Type :=
| CLoc (l : Location.t)
| CIdx (i : Z).

(** The first loop of [fastest_trip_from]. *)
Fixpoint collect (self : t) (potential_locations : list candidate)
    (locations_to_check : list Location.t) : outcome (list Location.t) :=
  match potential_locations with
  | [] => Ok locations_to_check
  | CIdx loc :: rest =>
      if ((loc <? 0) || (loc >=? Z.of_nat (List.length (settlements self))))%Z
      then Raise IndexError
      else
        match nth_error (settlements self) (Z.to_nat loc) with
        | Some l => collect self rest (LocSet.add l locations_to_check)
        | None => Raise IndexError
        end
  | CLoc loc :: rest => collect self rest (LocSet.add loc locations_to_check)
  end.

(** The second loop: a candidate whose travel time raises ValueError is
    skipped, any other exception propagates. *)
Fixpoint trip_times (self : t) (current_location : Location.t)
    (locations_to_check : list Location.t) : outcome (list (Location.t * R)) :=
  match locations_to_check with
  | [] => Ok []
  | loc :: rest =>
      match travel_time self current_location loc with
      | Ok time =>
          travel_times <- trip_times self current_location rest ;;
          Ok ((loc, time) :: travel_times)
      | Raise ValueError => trip_times self current_location rest
      | Raise e => Raise e
      | Timeout => Timeout
      end
  end.

(** [key = lambda x: (x[1], x[0].name, x[0].region)] *)
Definition trip_key (x : Location.t * R) : R * (string * string) :=
  (snd x, (name (fst x), region (fst x))).

Definition trip_lt (x y : Location.t * R) : bool :=
  triple_lt (trip_key x) (trip_key y).

(** [Country.fastest_trip_from]; [Ok None] is the pair [(None, None)]. *)
Definition fastest_trip_from (self : t) (current_location : Location.t)
    (potential_locations : option (list candidate))
  : outcome (option (Location.t * R)) :=
  let potential_locations :=
    match potential_locations with
    | None => map CLoc (settlements self)
    | Some l => l
    end in
  locations_to_check <- collect self potential_locations [] ;;
  let locations_to_check := LocSet.discard current_location locations_to_check in
  match locations_to_check with
  | [] => Ok None
  | _ :: _ =>
      travel_times <- trip_times self current_location locations_to_check ;;
      match travel_times with
      | [] => Ok None
      | _ :: _ =>
          match py_sorted trip_lt travel_times with
          | first :: _ => Ok (Some first)
          | [] => Raise IndexError
          end
      end
  end.

(** The variables of the [while] loop of [nn_tour]. *)
Record tour_state : Type := mk_state {
  tour : list Location.t;
  unvisited : list Location.t;
  total_time : R;
  current : Location.t
}.

(** [while unvisited: ...]; one unit of fuel per iteration. *)
Fixpoint nn_loop (fuel : nat) (self : t) (st : tour_state) : outcome tour_state :=
  match unvisited st with
  | [] => Ok st
  | _ :: _ =>
      match fuel with
      | O => Timeout
      | S fuel' =>
          trip <- fastest_trip_from self (current st)
                    (Some (map CLoc (unvisited st))) ;;
          match trip with
          | None => Raise TypeError
          | Some (next_loc, time) =>
              match LocSet.remove next_loc (unvisited st) with
              | None => Raise KeyError
              | Some unvisited' =>
                  nn_loop fuel' self
                    (mk_state (tour st ++ [next_loc]) unvisited'
                       (total_time st + time)%R next_loc)
              end
          end
      end
  end.

(** [Country.nn_tour]; the loop is given as much fuel as there are
    settlements to visit. *)
Definition nn_tour (self : t) (starting_depot : Location.t)
  : outcome (list Location.t * R) :=
  if negb (contains starting_depot (depots self)) then Raise ValueError
  else if Nat.eqb (n_settlements self) 0
  then Ok ([starting_depot; starting_depot], 0%R)
  else
    let unvisited := LocSet.of_list (settlements self) in
    st <- nn_loop (List.length unvisited) self
            (mk_state [starting_depot] unvisited 0%R starting_depot) ;;
    final_time <- travel_time self (current st) starting_depot ;;
    Ok (tour st ++ [starting_depot], (total_time st + final_time)%R).

(** [key = lambda x: (x.name, x.region)] *)
Definition depot_lt (x y : Location.t) : bool :=
  pair_lt (name x, region x) (name y, region y).

(** The best time, depot and tour so far; a best time of [None] is
    [float('inf')]. *)
Record best : Type := mk_best {
  best_time : option R;
  best_depot : option Location.t;
  best_tour : option (list Location.t)
}.

(** [time < best_time] *)
Definition improves (time : R) (best_time : option R) : bool :=
  match best_time with
  | None => true
  | Some b => Rltb time b
  end.

(** The [for] loop of [best_depot_site]. *)
Fixpoint best_loop (self : t) (ds : list Location.t) (b : best) : outcome best :=
  match ds with
  | [] => Ok b
  | depot :: rest =>
      res <- nn_tour self depot ;;
      let '(tour, time) := res in
      if improves time (best_time b)
      then best_loop self rest (mk_best (Some time) (Some depot) (Some tour))
      else best_loop self rest b
  end.

(** [Country.best_depot_site]: the value returned; the [display] flag only
    controls printing. *)
Definition best_depot_site (self : t) (display : bool) : outcome (option Location.t) :=
  match depots self with
  | [] => Raise ValueError
  | _ :: _ =>
      b <- best_loop self (py_sorted depot_lt (depots self))
             (mk_best None None None) ;;
      Ok (best_depot b)
  end.
End Country.

(** ** Vocabulary of the specification *)

Definition is_bool (v : pyval) : bool :=
  match v with PyBool _ => true | _ => false end.


Definition is_location (v : pyval) : bool :=
  match v with PyLoc _ => true | _ => false end.



(** What [Location.__init__] establishes. *)
Definition Location_valid (l : Location.t) : Prop :=
  (0 <= Location.r l)%R /\ (- PI <= Location.theta l <= PI)%R.

(** No two Locations of the list are equal. *)
Fixpoint distinct (l : list Location.t) : bool :=
  match l with
  | [] => true
  | x :: l' => negb (LocationOps.contains x l') && distinct l'
  end.

(** Two positions of the list hold Locations with the same name and region. *)
Definition has_equal_pair (l : list Location.t) : Prop :=
  exists (i j : nat) (a b : Location.t),
    (i < j)%nat /\ nth_error l i = Some a /\ nth_error l j = Some b
    /\ Location.name a = Location.name b
    /\ Location.region a = Location.region b.

(** [ascending lt a b]: [b] is not below [a]. *)
Definition ascending (K : Type) (lt : K -> K -> bool) (a b : K) : Prop :=
  lt b a = false.

(** A strict total order, given by its boolean test. *)
Definition strict_total (K : Type) (lt : K -> K -> bool) : Prop :=
  (forall x, lt x x = false)
  /\ (forall x y z, lt x y = true -> lt y z = true -> lt x z = true)
  /\ (forall x y, lt x y = false -> lt y x = false -> x = y).

(** The Locations that a collection of candidates stands for: an index is
    the settlement at that position; [None] when an index is out of range. *)
Fixpoint resolve (c : Country.t) (cands : list Country.candidate)
  : option (list Location.t) :=
  match cands with
  | [] => Some []
  | Country.CLoc l :: rest => option_map (cons l) (resolve c rest)
  | Country.CIdx i :: rest =>
      if ((0 <=? i) && (i <? Z.of_nat (List.length (Country.settlements c))))%Z
      then match nth_error (Country.settlements c) (Z.to_nat i) with
           | Some l => option_map (cons l) (resolve c rest)
           | None => None
           end
      else None
  end.

(** The key [(time, name, region)] of the first trip is at most the key of
    the second, lexicographically. *)
Definition key_le (a b : Location.t * R) : Prop :=
  (snd a < snd b)%R
  \/ (snd a = snd b
      /\ (String.ltb (Location.name (fst a)) (Location.name (fst b)) = true
          \/ (Location.name (fst a) = Location.name (fst b)
              /\ (String.ltb (Location.region (fst a)) (Location.region (fst b)) = true
                  \/ Location.region (fst a) = Location.region (fst b))))).



(** ** Data of the examples *)

(** A parser of unsigned decimal numerals, standing for [float] on text. *)
Fixpoint digits (s : string) (acc : Z) : option Z :=
  match s with
  | EmptyString => Some acc
  | String c s' =>
      let n := nat_of_ascii c in
      if ((48 <=? n) && (n <=? 57))%nat
      then digits s' (10 * acc + Z.of_nat (n - 48))%Z
      else None
  end.

Definition parse_decimal (s : string) : option R :=
  match s with
  | EmptyString => None
  | _ => option_map IZR (digits s 0%Z)
  end.

(** Two depots at the origin and two settlements at one and the same place,
    3 metres away, all in one region; in the Country the later names come
    first. *)
Definition ex_depot : Location.t := Location.mk "A Depot" "Hold" 0 0 true.
Definition ex_depot2 : Location.t := Location.mk "B Depot" "Hold" 0 0 true.
Definition ex_a : Location.t := Location.mk "A" "Hold" 3 0 false.
Definition ex_b : Location.t := Location.mk "B" "Hold" 3 0 false.
Definition ex_places : list Location.t := [ex_b; ex_depot2; ex_depot; ex_a].
Definition ex_land : Country.t := Country.mk ex_places.

Definition ex_home : Location.t := Location.mk "A" "R" 0 0 false.
Definition ex_moved : Location.t := Location.mk "A" "R" 3 0 false.

(** ** The rest of the Location class *)

(** The setter of the property [depot], [self.depot = value]: the Location as
    it is after the assignment. *)
Definition Location_set_depot (self : Location.t) (value : pyval)
  : outcome Location.t :=
  match value with
  | PyBool value =>
      Ok (Location.mk (Location.name self) (Location.region self)
            (Location.r self) (Location.theta self) value)
  | _ => Raise TypeError
  end.

(** ** Vocabulary of the further properties *)

(** The string has a blank character. *)
Fixpoint has_blank (s : string) : bool :=
  match s with
  | EmptyString => false
  | String c s' => is_space c || has_blank s'
  end.

(** A word: not empty and without a blank. *)
Definition is_word (s : string) : bool :=
  match s with
  | EmptyString => false
  | _ => negb (has_blank s)
  end.



(** * Proofs *)

Local Open Scope R_scope.

(** ** Comparisons of numbers *)

Lemma Rltb_true (x y : R) : Rltb x y = true <-> x < y.
Proof. unfold Rltb; destruct (Rlt_dec x y); split; intros; auto; discriminate. Qed.

Lemma Rltb_false (x y : R) : Rltb x y = false <-> y <= x.
Proof.
  unfold Rltb; destruct (Rlt_dec x y); split; intros; auto; try discriminate; lra.
Qed.

Lemma Reqb_true (x y : R) : Reqb x y = true <-> x = y.
Proof. unfold Reqb; destruct (Req_dec_T x y); split; intros; auto; discriminate. Qed.

Lemma Reqb_false (x y : R) : Reqb x y = false <-> x <> y.
Proof.
  unfold Reqb; destruct (Req_dec_T x y); split; intros; auto; try discriminate; contradiction.
Qed.

Lemma default_speed_pos : 0 < default_speed.
Proof. unfold default_speed; lra. Qed.

(** ** The cost model *)

Lemma travel_time_ok (distance flag : R) (population : number) (speed : R) :
  0 <= distance -> flag = 0 \/ flag = 1 -> 0 < speed ->
  travel_time distance flag population speed
  = Ok ((1 / 3600) * (distance / speed)
        * (1 + (flag * IZR (Z.max 1 (py_int population))) / 10)).
Proof.
  intros Hd Hf Hs. unfold travel_time.
  destruct (Rlt_dec distance 0) as [Hlt | _]; [lra |].
  assert (Hflag : Reqb flag 0 || Reqb flag 1 = true).
  { apply orb_true_iff. destruct Hf as [-> | ->]; [left | right]; now apply Reqb_true. }
  rewrite Hflag; simpl.
  assert (Hsp : Reqb speed 0 = false) by (apply Reqb_false; lra).
  now rewrite Hsp.
Qed.



(** ** Locations: equality and hashing *)

Lemma loc_eqb_iff (a b : Location.t) :
  LocationOps.eqb a b = true
  <-> Location.name a = Location.name b /\ Location.region a = Location.region b.
Proof.
  unfold LocationOps.eqb. rewrite andb_true_iff, !String.eqb_eq. tauto.
Qed.

Lemma loc_eqb_refl (a : Location.t) : LocationOps.eqb a a = true.
Proof. now apply loc_eqb_iff. Qed.

Lemma loc_eqb_sym (a b : Location.t) : LocationOps.eqb a b = LocationOps.eqb b a.
Proof.
  unfold LocationOps.eqb. now rewrite (String.eqb_sym (Location.name a)),
    (String.eqb_sym (Location.region a)).
Qed.

Lemma loc_eqb_trans (a b c : Location.t) :
  LocationOps.eqb a b = true -> LocationOps.eqb b c = true ->
  LocationOps.eqb a c = true.
Proof.
  rewrite !loc_eqb_iff. intros [-> ->] [-> ->]. now split.
Qed.

(** C6: two Locations are equal exactly when name and region both match, the
    coordinates and the depot flag playing no part; equal Locations have equal
    hashes, and Locations that differ in name or region are unequal. *)
Theorem Location_eq_hash (str_hash : string -> Z) (a b : Location.t) :
  (LocationOps.equals a (PyLoc b) = true
   <-> Location.name a = Location.name b /\ Location.region a = Location.region b)
  /\ (LocationOps.equals a (PyLoc b) = false
      <-> Location.name a <> Location.name b \/ Location.region a <> Location.region b)
  /\ (forall (r' theta' : R) (depot' : bool),
        let a' := Location.mk (Location.name a) (Location.region a) r' theta' depot' in
        LocationOps.equals a (PyLoc a') = true
        /\ Location_hash str_hash a = Location_hash str_hash a')
  /\ (LocationOps.equals a (PyLoc b) = true ->
      Location_hash str_hash a = Location_hash str_hash b).
Proof.
  unfold LocationOps.equals, LocationOps.eq.
  assert (Hf : LocationOps.eqb a b = false
               <-> Location.name a <> Location.name b
                   \/ Location.region a <> Location.region b).
  { unfold LocationOps.eqb. rewrite andb_false_iff, !String.eqb_neq. tauto. }
  split; [apply loc_eqb_iff |]. split; [exact Hf |]. split.
  - intros r' theta' depot'. simpl. split.
    + now apply loc_eqb_iff.
    + reflexivity.
  - intros [Hn Hr]%loc_eqb_iff. unfold Location_hash. now rewrite Hn, Hr.
Qed.

Lemma Location_eq_hash_witness :
  LocationOps.equals ex_home (PyLoc ex_moved) = true
  /\ Location_hash (fun s => Z.of_nat (String.length s)) ex_home
     = Location_hash (fun s => Z.of_nat (String.length s)) ex_moved.
Proof.
  split; [reflexivity |].
  apply (Location_eq_hash (fun s => Z.of_nat (String.length s)) ex_home ex_moved).
  reflexivity.
Defined.

(** ** Locations: distance *)

Lemma radicand_sym (r1 t1 r2 t2 : R) :
  r1 ^ 2 + r2 ^ 2 - 2 * r1 * r2 * cos (t1 - t2)
  = r2 ^ 2 + r1 ^ 2 - 2 * r2 * r1 * cos (t2 - t1).
Proof.
  replace (t1 - t2) with (- (t2 - t1)) by ring. rewrite cos_neg. ring.
Qed.


Lemma py_sqrt_ok (x : R) : 0 <= x -> py_sqrt x = Ok (sqrt x).
Proof. intros H. unfold py_sqrt. destruct (Rlt_dec x 0); [lra | reflexivity]. Qed.

Lemma distance_to_sym (a b : Location.t) :
  LocationOps.distance_to a (PyLoc b) = LocationOps.distance_to b (PyLoc a).
Proof. unfold LocationOps.distance_to. now rewrite radicand_sym. Qed.

Lemma distance_to_same_place (a b : Location.t) :
  Location.r b = Location.r a -> Location.theta b = Location.theta a ->
  LocationOps.distance_to a (PyLoc b) = Ok 0.
Proof.
  intros Hr Ht. unfold LocationOps.distance_to. rewrite Hr, Ht.
  replace (Location.theta a - Location.theta a) with 0 by ring.
  rewrite cos_0.
  replace (Location.r a ^ 2 + Location.r a ^ 2 - 2 * Location.r a * Location.r a * 1)
    with 0 by ring.
  rewrite py_sqrt_ok by lra. now rewrite sqrt_0.
Qed.


(** C8 (as the code has it): [distance_to] with an argument that is not a
    Location raises ValueError, the value-class error. *)
Theorem distance_to_not_a_Location (a : Location.t) (x : pyval) :
  is_location x = false -> LocationOps.distance_to a x = Raise ValueError.
Proof. destruct x; simpl; intros H; try reflexivity; discriminate. Qed.

Lemma distance_to_not_a_Location_witness :
  LocationOps.distance_to ex_home (PyStr "Riverwood") = Raise ValueError.
Proof. apply (distance_to_not_a_Location ex_home (PyStr "Riverwood")). reflexivity. Defined.

(** C8, the claim refuted: on the integer 5 the error is not a TypeError. *)
Lemma distance_to_int_not_TypeError :
  is_location (PyInt 5) = false
  /\ LocationOps.distance_to ex_home (PyInt 5) = Raise ValueError
  /\ LocationOps.distance_to ex_home (PyInt 5) <> Raise TypeError.
Proof. repeat split. discriminate. Qed.

(** ** Locations: construction *)

Lemma reraise_ValueError_id (A : Type) (m : outcome A) : reraise_ValueError m = m.
Proof. destruct m as [a | [] |]; reflexivity. Qed.


Section Construction.
Variable parse : string -> option R.
Variables name region r theta : pyval.
Variable depot : bool.

End Construction.

(** A Location that was constructed has a radius that is not negative and an
    angle between minus pi and pi. *)
Lemma Location_init_valid (parse : string -> option R)
    (name region r theta depot : pyval) (l : Location.t) (w : list string) :
  Location_init parse name region r theta depot = Ok (l, w) -> Location_valid l.
Proof.
  unfold Location_init. destruct depot as [ | d | | | | ]; try discriminate.
  rewrite !reraise_ValueError_id.
  destruct (py_float parse r) as [x | |]; try discriminate; simpl.
  destruct (Rltb x 0) eqn:Hx; try discriminate.
  destruct (py_float parse theta) as [y | |]; try discriminate; simpl.
  destruct (Rltb y (- PI) || Rltb PI y) eqn:Hy; try discriminate.
  destruct name; try discriminate. destruct region; try discriminate.
  intros [= <- _]. apply Rltb_false in Hx. apply orb_false_iff in Hy.
  destruct Hy as [H1%Rltb_false H2%Rltb_false]. unfold Location_valid; simpl. lra.
Qed.





(** A value for which [float] raises TypeError is not turned into a
    ValueError by the constructor. *)
Lemma Location_init_None_radius :
  Location_init parse_decimal (PyStr "Test") (PyStr "Region")
    PyNone (PyFloat 0) (PyBool false) = Raise TypeError.
Proof. reflexivity. Qed.

(** Construction normalises the name and the region and reports it. *)
Lemma Location_init_normalises :
  exists w,
    Location_init parse_decimal (PyStr "  riverWOOD") (PyStr "whiterun   hold")
      (PyStr "100") (PyFloat 0) (PyBool false)
    = Ok (Location.mk "Riverwood" "Whiterun Hold" 100 0 false, w)
    /\ List.length w = 4%nat.
Proof.
  unfold Location_init. simpl.
  assert (H1 : Rltb 100 0 = false) by (apply Rltb_false; lra).
  assert (H2 : Rltb 0 (- PI) || Rltb PI 0 = false).
  { pose proof PI_RGT_0. apply orb_false_iff; split; apply Rltb_false; lra. }
  rewrite H1. simpl. rewrite H2. eexists. split; reflexivity.
Qed.

(** ** Travel time inside a Country *)





(** ** Membership, duplicates and sets *)

Lemma contains_true (x : Location.t) (l : list Location.t) :
  LocationOps.contains x l = true
  <-> exists e, In e l /\ LocationOps.eqb e x = true.
Proof. unfold LocationOps.contains. apply existsb_exists. Qed.

Lemma contains_false (x : Location.t) (l : list Location.t) :
  LocationOps.contains x l = false
  <-> forall e, In e l -> LocationOps.eqb e x = false.
Proof.
  split.
  - intros H e He. apply not_true_is_false. intros E.
    assert (LocationOps.contains x l = true) by (apply contains_true; eauto).
    congruence.
  - intros H. apply not_true_is_false. intros (e & He & E)%contains_true.
    rewrite (H e He) in E. discriminate.
Qed.

Lemma contains_In (x : Location.t) (l : list Location.t) :
  In x l -> LocationOps.contains x l = true.
Proof. intros H. apply contains_true. exists x. split; [assumption | apply loc_eqb_refl]. Qed.

Lemma contains_eqb (x y : Location.t) (l : list Location.t) :
  LocationOps.eqb x y = true ->
  LocationOps.contains x l = LocationOps.contains y l.
Proof.
  intros E. unfold LocationOps.contains. induction l as [| e l IH]; simpl; [reflexivity |].
  rewrite IH. f_equal.
  destruct (LocationOps.eqb e x) eqn:Ex.
  - symmetry. now apply loc_eqb_trans with x.
  - destruct (LocationOps.eqb e y) eqn:Ey; [| reflexivity].
    rewrite loc_eqb_sym in E. rewrite (loc_eqb_trans _ _ _ Ey E) in Ex. discriminate.
Qed.

Lemma contains_app (x : Location.t) (l1 l2 : list Location.t) :
  LocationOps.contains x (l1 ++ l2)
  = LocationOps.contains x l1 || LocationOps.contains x l2.
Proof. apply existsb_app. Qed.

Lemma distinct_app (l1 l2 : list Location.t) :
  distinct (l1 ++ l2) = true
  <-> distinct l1 = true /\ distinct l2 = true
      /\ forall a b, In a l1 -> In b l2 -> LocationOps.eqb a b = false.
Proof.
  induction l1 as [| x l1 IH]; simpl.
  - intuition.
  - rewrite !andb_true_iff, !negb_true_iff, contains_app, orb_false_iff, IH.
    rewrite !contains_false. split.
    + intros ((H1 & H2) & H3 & H4 & H5). repeat split; try assumption.
      intros a b [<- | Ha] Hb; [| now apply H5].
      rewrite loc_eqb_sym. now apply H2.
    + intros ((H1 & H2) & H3 & H4). repeat split; try assumption.
      * intros e He. rewrite loc_eqb_sym. apply H4; [now left | assumption].
      * intros a b Ha Hb. apply H4; [now right | assumption].
Qed.


Lemma distinct_filter (f : Location.t -> bool) (l : list Location.t) :
  distinct l = true -> distinct (filter f l) = true.
Proof.
  induction l as [| x l IH]; simpl; [reflexivity |].
  rewrite andb_true_iff, negb_true_iff. intros [Hx Hl].
  destruct (f x); simpl; [| now apply IH].
  rewrite andb_true_iff, negb_true_iff. split; [| now apply IH].
  apply contains_false. intros e [He _]%filter_In.
  rewrite contains_false in Hx. now apply Hx.
Qed.

Lemma add_all_length (s l : list Location.t) :
  (List.length (LocSet.add_all s l) <= List.length s + List.length l)%nat.
Proof.
  revert s. induction l as [| x l IH]; intros s; simpl; [lia |].
  specialize (IH (LocSet.add x s)). unfold LocSet.add_all in *.
  unfold LocSet.add in *. destruct (LocationOps.contains x s).
  - lia.
  - rewrite length_app in IH. simpl in IH. lia.
Qed.

Lemma add_all_distinct (s l : list Location.t) :
  distinct (s ++ l) = true -> LocSet.add_all s l = s ++ l.
Proof.
  revert s. induction l as [| x l IH]; intros s H; simpl.
  - now rewrite app_nil_r.
  - assert (Hx : LocationOps.contains x s = false).
    { apply distinct_app in H. destruct H as (_ & _ & H).
      apply contains_false. intros e He. apply H; [assumption | now left]. }
    unfold LocSet.add_all in *. simpl. unfold LocSet.add at 2. rewrite Hx.
    rewrite IH; rewrite <- app_assoc; [reflexivity | assumption].
Qed.

Lemma add_all_full_length (s l : list Location.t) :
  distinct s = true ->
  List.length (LocSet.add_all s l) = (List.length s + List.length l)%nat ->
  distinct (s ++ l) = true.
Proof.
  revert s. induction l as [| x l IH]; intros s Hs Hlen.
  - now rewrite app_nil_r.
  - unfold LocSet.add_all in Hlen. simpl in Hlen. unfold LocSet.add at 2 in Hlen.
    destruct (LocationOps.contains x s) eqn:Hx.
    + pose proof (add_all_length s l) as Hle. unfold LocSet.add_all in Hle.
      simpl in Hlen. lia.
    + assert (Hsx : distinct (s ++ [x]) = true).
      { apply distinct_app. split; [assumption |]. split; [reflexivity |].
        intros a b Ha [<- | []]. rewrite contains_false in Hx. now apply Hx. }
      replace (s ++ x :: l) with ((s ++ [x]) ++ l) by now rewrite <- app_assoc.
      apply IH; [assumption |].
      unfold LocSet.add_all. rewrite Hlen, length_app. simpl. lia.
Qed.

Lemma of_list_distinct (l : list Location.t) :
  distinct l = true -> LocSet.of_list l = l.
Proof. intros H. unfold LocSet.of_list. now rewrite add_all_distinct. Qed.

Lemma init_ok_iff (l : list Location.t) :
  (distinct l = true -> Country.init l = Ok (Country.mk l))
  /\ (distinct l = false -> Country.init l = Raise ValueError).
Proof.
  unfold Country.init. split; intros H.
  - rewrite of_list_distinct by assumption. now rewrite Nat.eqb_refl.
  - destruct (Nat.eqb _ _) eqn:E; [| reflexivity].
    apply Nat.eqb_eq in E.
    pose proof (@add_all_full_length [] l eq_refl E) as H'. simpl in H'. congruence.
Qed.

Lemma init_inv (l : list Location.t) (c : Country.t) :
  Country.init l = Ok c -> c = Country.mk l /\ distinct l = true.
Proof.
  intros H. destruct (distinct l) eqn:D.
  - rewrite (proj1 (init_ok_iff l) D) in H. now injection H as <-.
  - rewrite (proj2 (init_ok_iff l) D) in H. discriminate.
Qed.

Lemma distinct_false_pair (l : list Location.t) :
  distinct l = false <-> has_equal_pair l.
Proof.
  split.
  - induction l as [| x l IH]; simpl; [discriminate |].
    rewrite andb_false_iff, negb_false_iff. intros [H | H].
    + apply contains_true in H. destruct H as (e & He & E).
      apply In_nth_error in He. destruct He as [j Hj].
      apply loc_eqb_iff in E. destruct E as [En Er].
      exists 0%nat, (S j), x, e. repeat split; auto; lia.
    + destruct (IH H) as (i & j & a & b & Hij & Ha & Hb & E).
      exists (S i), (S j), a, b. repeat split; try tauto; lia.
  - intros (i & j & a & b & Hij & Ha & Hb & En & Er).
    apply not_true_is_false. intros D. revert i j Hij Ha Hb.
    induction l as [| x l IH]; intros i j Hij Ha Hb.
    + destruct i; discriminate.
    + simpl in D. apply andb_true_iff in D. destruct D as [Dx Dl].
      apply negb_true_iff in Dx. rewrite contains_false in Dx.
      destruct j as [| j]; [lia |]. simpl in Hb.
      destruct i as [| i]; simpl in Ha.
      * injection Ha as ->. apply nth_error_In in Hb.
        specialize (Dx b Hb). rewrite loc_eqb_sym in Dx.
        assert (LocationOps.eqb a b = true) by now apply loc_eqb_iff.
        congruence.
      * apply (IH Dl i j); [lia | assumption | assumption].
Qed.

(** C5: a Country cannot be made from a list in which two Locations are
    equal (same name and region): the constructor raises ValueError; from a
    list without such a pair it is made, and it keeps the Locations as they
    were given, in number and in order. *)
Theorem Country_init_duplicates (l : list Location.t) :
  (has_equal_pair l -> Country.init l = Raise ValueError)
  /\ (~ has_equal_pair l ->
      exists c, Country.init l = Ok c
                /\ Country.all_locations c = l
                /\ List.length (Country.all_locations c) = List.length l).
Proof.
  split.
  - intros H%distinct_false_pair. now apply init_ok_iff.
  - intros H. assert (D : distinct l = true).
    { destruct (distinct l) eqn:D; [reflexivity |].
      now apply distinct_false_pair in D. }
    exists (Country.mk l). split; [now apply init_ok_iff |]. split; reflexivity.
Qed.

(** ** The built-in [sorted] *)

Section SortedFacts.
Variable A : Type.
Variable lt : A -> A -> bool.

Lemma insert_perm (x : A) (l : list A) : Permutation (insert lt x l) (x :: l).
Proof.
  induction l as [| y l IH]; simpl; [reflexivity |].
  destruct (lt y x); [| reflexivity].
  rewrite IH. apply perm_swap.
Qed.

Lemma py_sorted_perm (l : list A) : Permutation (py_sorted lt l) l.
Proof.
  induction l as [| x l IH]; simpl; [reflexivity |].
  rewrite insert_perm. now constructor.
Qed.

Lemma py_sorted_nil (l : list A) : py_sorted lt l = [] -> l = [].
Proof.
  intros H. apply Permutation_nil. rewrite <- H. apply py_sorted_perm.
Qed.

Hypothesis lt_asym : forall x y, lt x y = true -> lt y x = false.
Hypothesis lt_negtrans :
  forall x y z, lt x y = false -> lt y z = false -> lt x z = false.

Lemma lt_irrefl (x : A) : lt x x = false.
Proof. destruct (lt x x) eqn:E; [| reflexivity]. pose proof (lt_asym E). congruence. Qed.

Lemma insert_ascending (x : A) (l : list A) :
  StronglySorted (ascending lt) l -> StronglySorted (ascending lt) (insert lt x l).
Proof.
  induction 1 as [| y l Hs IH Hy]; simpl.
  - repeat constructor.
  - destruct (lt y x) eqn:E.
    + constructor; [assumption |].
      rewrite insert_perm. constructor; [| assumption].
      now apply lt_asym.
    + constructor; [now constructor |].
      constructor; [exact E |].
      rewrite Forall_forall in *. intros z Hz.
      apply lt_negtrans with y; [now apply Hy | exact E].
Qed.

Lemma py_sorted_ascending (l : list A) : StronglySorted (ascending lt) (py_sorted lt l).
Proof.
  induction l as [| x l IH]; simpl; [constructor | now apply insert_ascending].
Qed.

Lemma py_sorted_head (l : list A) (h : A) (t : list A) :
  py_sorted lt l = h :: t -> In h l /\ forall x, In x l -> lt x h = false.
Proof.
  intros H. pose proof (py_sorted_perm l) as P. rewrite H in P.
  split; [apply (Permutation_in h P); now left |].
  intros x Hx. apply Permutation_sym in P. apply (Permutation_in x P) in Hx.
  pose proof (py_sorted_ascending l) as S. rewrite H in S.
  inversion S as [| ? ? _ Hall]; subst.
  destruct Hx as [<- | Hx]; [apply lt_irrefl |].
  rewrite Forall_forall in Hall. now apply Hall.
Qed.
End SortedFacts.

(** ** The orders on keys *)

Lemma strict_total_asym (K : Type) (lt : K -> K -> bool) :
  strict_total lt -> forall x y, lt x y = true -> lt y x = false.
Proof.
  intros (Hirr & Htr & _) x y H. destruct (lt y x) eqn:E; [| reflexivity].
  rewrite <- (Hirr x). symmetry. now apply Htr with y.
Qed.

Lemma strict_total_negtrans (K : Type) (lt : K -> K -> bool) :
  strict_total lt ->
  forall x y z, lt x y = false -> lt y z = false -> lt x z = false.
Proof.
  intros (Hirr & Htr & Htot) x y z Hxy Hyz.
  destruct (lt x z) eqn:Hxz; [| reflexivity].
  destruct (lt y x) eqn:Hyx.
  - rewrite <- Hyz. symmetry. now apply Htr with x.
  - rewrite (Htot x y Hxy Hyx) in Hxz. congruence.
Qed.

Lemma strict_total_key (K B : Type) (lt : K -> K -> bool) (key : B -> K) :
  strict_total lt ->
  (forall x y, lt (key x) (key y) = true -> lt (key y) (key x) = false)
  /\ (forall x y z, lt (key x) (key y) = false -> lt (key y) (key z) = false ->
                    lt (key x) (key z) = false).
Proof.
  intros H. split.
  - intros x y. apply (strict_total_asym H).
  - intros x y z. apply (strict_total_negtrans H).
Qed.

Lemma string_compare_refl (s : string) : String.compare s s = Eq.
Proof.
  induction s as [| c s IH]; simpl; [reflexivity |].
  unfold Ascii.compare. now rewrite N.compare_refl.
Qed.

Lemma string_compare_eq (s1 s2 : string) : String.compare s1 s2 = Eq -> s1 = s2.
Proof.
  revert s2. induction s1 as [| c1 s1 IH]; intros [| c2 s2]; simpl;
    try discriminate; [reflexivity |].
  destruct (Ascii.compare c1 c2) eqn:E; try discriminate.
  intros H. apply Ascii.compare_eq_iff in E. subst. f_equal. now apply IH.
Qed.

Lemma string_compare_trans (s1 s2 s3 : string) :
  String.compare s1 s2 = Lt -> String.compare s2 s3 = Lt ->
  String.compare s1 s3 = Lt.
Proof.
  revert s2 s3. induction s1 as [| c1 s1 IH]; intros [| c2 s2] [| c3 s3]; simpl;
    try discriminate; try reflexivity.
  destruct (Ascii.compare c1 c2) eqn:E12; try discriminate;
    destruct (Ascii.compare c2 c3) eqn:E23; try discriminate; intros H12 H23.
  - apply Ascii.compare_eq_iff in E12, E23. subst.
    unfold Ascii.compare. rewrite N.compare_refl. now apply IH with s2.
  - apply Ascii.compare_eq_iff in E12. subst. now rewrite E23.
  - apply Ascii.compare_eq_iff in E23. subst. now rewrite E12.
  - unfold Ascii.compare in *. rewrite N.compare_lt_iff in *.
    assert (H : (N_of_ascii c1 < N_of_ascii c3)%N) by lia.
    apply N.compare_lt_iff in H. now rewrite H.
Qed.

Lemma string_ltb_strict_total : strict_total String.ltb.
Proof.
  unfold strict_total, String.ltb. repeat split.
  - intros x. now rewrite string_compare_refl.
  - intros x y z Hxy Hyz.
    destruct (String.compare x y) eqn:Exy; try discriminate.
    destruct (String.compare y z) eqn:Eyz; try discriminate.
    now rewrite (string_compare_trans _ _ _ Exy Eyz).
  - intros x y Hxy Hyx. apply string_compare_eq.
    rewrite String.compare_antisym in Hyx.
    destruct (String.compare x y); simpl in *; try discriminate; reflexivity.
Qed.

Lemma Rltb_strict_total : strict_total Rltb.
Proof.
  unfold strict_total. repeat split.
  - intros x. apply Rltb_false. lra.
  - intros x y z. rewrite !Rltb_true. lra.
  - intros x y. rewrite !Rltb_false. lra.
Qed.

Section TupleFacts.
Variables K1 K2 : Type.
Variable eq1 : K1 -> K1 -> bool.
Variable lt1 : K1 -> K1 -> bool.
Variable lt2 : K2 -> K2 -> bool.
Hypothesis eq1_spec : forall x y, eq1 x y = true <-> x = y.
Hypothesis total1 : strict_total lt1.
Hypothesis total2 : strict_total lt2.

Lemma tuple_lt_inv (a b : K1 * K2) :
  tuple_lt eq1 lt1 lt2 a b = true
  <-> lt1 (fst a) (fst b) = true
      \/ (fst a = fst b /\ lt2 (snd a) (snd b) = true).
Proof.
  destruct total1 as (Hirr & _ & _). unfold tuple_lt.
  destruct (eq1 (fst a) (fst b)) eqn:E.
  - apply eq1_spec in E. rewrite E, Hirr. intuition discriminate.
  - assert (fst a <> fst b).
    { intros H. apply eq1_spec in H. congruence. }
    intuition.
Qed.

Lemma tuple_lt_strict_total : strict_total (tuple_lt eq1 lt1 lt2).
Proof.
  pose proof total1 as (Hirr1 & Htr1 & Htot1).
  pose proof total2 as (Hirr2 & Htr2 & Htot2).
  unfold strict_total. repeat split.
  - intros x. apply not_true_is_false. rewrite tuple_lt_inv, Hirr1, Hirr2.
    intros [H | [_ H]]; discriminate.
  - intros x y z. rewrite !tuple_lt_inv.
    intros [H1 | [E1 H1]] [H2 | [E2 H2]].
    + left. now apply Htr1 with (fst y).
    + left. now rewrite <- E2.
    + left. now rewrite E1.
    + right. split; [congruence | now apply Htr2 with (snd y)].
  - intros [x1 x2] [y1 y2] Hxy Hyx.
    assert (Hxy' : ~ tuple_lt eq1 lt1 lt2 (x1, x2) (y1, y2) = true) by congruence.
    assert (Hyx' : ~ tuple_lt eq1 lt1 lt2 (y1, y2) (x1, x2) = true) by congruence.
    rewrite tuple_lt_inv in Hxy', Hyx'. simpl in *.
    assert (E1 : x1 = y1).
    { apply Htot1; apply not_true_is_false; tauto. }
    subst. f_equal. apply Htot2; apply not_true_is_false; tauto.
Qed.
End TupleFacts.

Lemma pair_lt_strict_total : strict_total pair_lt.
Proof.
  apply tuple_lt_strict_total.
  - apply String.eqb_eq.
  - apply string_ltb_strict_total.
  - apply string_ltb_strict_total.
Qed.

Lemma triple_lt_strict_total : strict_total triple_lt.
Proof.
  apply tuple_lt_strict_total.
  - apply Reqb_true.
  - apply Rltb_strict_total.
  - apply pair_lt_strict_total.
Qed.

(** A trip that is not above another in the order of [sorted] has a key that
    is at most the other's. *)
Lemma trip_lt_false_key_le (a b : Location.t * R) :
  Country.trip_lt b a = false -> key_le a b.
Proof.
  intros H.
  assert (N : ~ triple_lt (Country.trip_key b) (Country.trip_key a) = true)
    by (unfold Country.trip_lt in H; congruence).
  unfold triple_lt in N.
  rewrite (@tuple_lt_inv _ _ Reqb Rltb pair_lt Reqb_true Rltb_strict_total) in N.
  unfold pair_lt in N.
  rewrite (@tuple_lt_inv _ _ String.eqb String.ltb String.ltb String.eqb_eq
             string_ltb_strict_total) in N.
  simpl in N. rewrite Rltb_true in N. unfold key_le.
  destruct (Rlt_le_dec (snd a) (snd b)) as [Hlt | Hle]; [now left |].
  right. assert (Et : snd a = snd b) by lra. split; [assumption |].
  destruct string_ltb_strict_total as (_ & _ & Htot).
  destruct (String.ltb (Location.name (fst a)) (Location.name (fst b))) eqn:En;
    [now left |].
  right.
  assert (En' : Location.name (fst a) = Location.name (fst b)).
  { apply Htot; [assumption |]. apply not_true_is_false. intros Hn. apply N.
    right. split; [now symmetry | now left]. }
  split; [assumption |].
  destruct (String.ltb (Location.region (fst a)) (Location.region (fst b))) eqn:Eg;
    [now left |].
  right. apply Htot; [assumption |]. apply not_true_is_false. intros Hg. apply N.
  right. split; [now symmetry |]. right. split; [now symmetry | assumption].
Qed.

(** ** More on sets *)








(** ** Travel times of candidates *)

Lemma Country_travel_time_cases (c : Country.t) (a b : Location.t) :
  (exists t, Country.travel_time c a b = Ok t)
  \/ Country.travel_time c a b = Raise ValueError.
Proof.
  unfold Country.travel_time.
  destruct (LocationOps.contains a _) eqn:Ha; simpl; [| now right].
  destruct (LocationOps.contains b _) eqn:Hb; simpl; [| now right].
  unfold py_sqrt. destruct (Rlt_dec _ 0); simpl; [now right |].
  left. eexists. apply travel_time_ok.
  - apply sqrt_pos.
  - destruct (negb _); auto.
  - exact default_speed_pos.
Qed.


Lemma trip_times_spec (c : Country.t) (cur : Location.t) (l : list Location.t) :
  exists ts,
    Country.trip_times c cur l = Ok ts
    /\ forall x t, In (x, t) ts <-> In x l /\ Country.travel_time c cur x = Ok t.
Proof.
  induction l as [| y l (ts & E & H)]; simpl.
  - exists []. split; [reflexivity |]. simpl. tauto.
  - destruct (Country_travel_time_cases c cur y) as [[t Ht] | Ht]; rewrite Ht.
    + rewrite E. simpl. exists ((y, t) :: ts). split; [reflexivity |].
      intros x t'. simpl. rewrite H. split.
      * intros [[= <- <-] | [Hx Hx']]; auto.
      * intros [[<- | Hx] Hx']; [left; congruence | auto].
    + exists ts. split; [assumption |].
      intros x t'. rewrite H. split.
      * intros [Hx Hx']; auto.
      * intros [[<- | Hx] Hx']; [congruence | auto].
Qed.

Lemma collect_resolve (c : Country.t) (cands : list Country.candidate)
    (acc : list Location.t) :
  Country.collect c cands acc
  = match resolve c cands with
    | Some locs => Ok (LocSet.add_all acc locs)
    | None => Raise IndexError
    end.
Proof.
  revert acc. induction cands as [| [l | i] cands IH]; intros acc; simpl.
  - reflexivity.
  - rewrite IH. now destruct (resolve c cands).
  - destruct (Z.ltb_spec i 0), (Z.leb_spec 0 i); try lia; simpl; try reflexivity.
    unfold Z.geb.
    destruct (Z.ltb_spec i (Z.of_nat (List.length (Country.settlements c)))) as [Hlt | Hge].
    + apply Z.compare_lt_iff in Hlt. rewrite Hlt. simpl.
      destruct (nth_error _ _); [| reflexivity].
      rewrite IH. now destruct (resolve c cands).
    + destruct (Z.compare_spec i (Z.of_nat (List.length (Country.settlements c))));
        simpl; try reflexivity; lia.
Qed.

(** What [fastest_trip_from] returns on candidates whose indices are in
    range: nothing when no remaining candidate has a travel time, and else a
    remaining candidate with the least key. *)
Lemma fastest_trip_from_char (c : Country.t) (cur : Location.t)
    (cands : list Country.candidate) (locs : list Location.t) :
  resolve c cands = Some locs ->
  let rem := LocSet.discard cur (LocSet.of_list locs) in
  ((forall l t, In l rem -> Country.travel_time c cur l <> Ok t)
   /\ Country.fastest_trip_from c cur (Some cands) = Ok None)
  \/ (exists best tb,
        Country.fastest_trip_from c cur (Some cands) = Ok (Some (best, tb))
        /\ In best rem
        /\ Country.travel_time c cur best = Ok tb
        /\ forall l t, In l rem -> Country.travel_time c cur l = Ok t ->
                       key_le (best, tb) (l, t)).
Proof.
  intros Hres rem. unfold Country.fastest_trip_from.
  rewrite collect_resolve, Hres. simpl bind.
  fold (LocSet.of_list locs). fold rem.
  destruct (trip_times_spec c cur rem) as (ts & Ets & Hts).
  destruct rem as [| r0 rem'] eqn:Erem.
  { left. split; [intros l t [] | reflexivity]. }
  rewrite Ets. simpl bind.
  destruct ts as [| p ts'] eqn:Ep.
  { left. split; [| reflexivity].
    intros l t Hl E. apply (Hts l t). now split. }
  rewrite <- Ep in *.
  destruct (strict_total_key Country.trip_key triple_lt_strict_total)
    as [Hasym Hneg].
  destruct (py_sorted Country.trip_lt ts) as [| [best tb] rest] eqn:Es.
  { apply py_sorted_nil in Es. congruence. }
  destruct (py_sorted_head Country.trip_lt Hasym Hneg ts Es) as [Hin Hmin].
  right. exists best, tb. apply Hts in Hin. destruct Hin as [Hin Ht].
  split; [reflexivity |]. split; [assumption |]. split; [assumption |].
  intros l t Hl Hlt. apply trip_lt_false_key_le. apply Hmin.
  apply Hts. now split.
Qed.

(** ** The nearest-neighbour tour *)

Lemma distinct_eqb_eq (l : list Location.t) (a b : Location.t) :
  distinct l = true -> In a l -> In b l -> LocationOps.eqb a b = true -> a = b.
Proof.
  induction l as [| x l IH]; simpl; [contradiction |].
  rewrite andb_true_iff, negb_true_iff, contains_false.
  intros [Hx Hl] [<- | Ha] [<- | Hb] E; auto.
  - rewrite loc_eqb_sym in E. rewrite (Hx b Hb) in E. discriminate.
  - rewrite (Hx a Ha) in E. discriminate.
Qed.

Lemma resolve_locs (c : Country.t) (l : list Location.t) :
  resolve c (map Country.CLoc l) = Some l.
Proof. induction l as [| x l IH]; simpl; [reflexivity | now rewrite IH]. Qed.

Section Tour.
Variable c : Country.t.
Hypothesis c_distinct : distinct (Country.all_locations c) = true.






End Tour.

Lemma init_distinct (locs : list Location.t) (c : Country.t) :
  Country.init locs = Ok c -> distinct (Country.all_locations c) = true.
Proof. now intros [-> D]%init_inv. Qed.



(** Two trips whose keys are each at most the other's take the same time to
    Locations that are equal. *)
Lemma key_le_antisym (a b : Location.t * R) :
  key_le a b -> key_le b a ->
  snd a = snd b /\ LocationOps.eqb (fst a) (fst b) = true.
Proof.
  destruct string_ltb_strict_total as (Hirr & _ & _).
  pose proof (strict_total_asym string_ltb_strict_total) as Hasym.
  unfold key_le.
  intros [H1 | (Et & Hn1)] [H2 | (Et2 & Hn2)]; try lra.
  split; [assumption |]. apply loc_eqb_iff.
  destruct Hn1 as [Hn1 | (En & Hg1)].
  - destruct Hn2 as [Hn2 | (En2 & _)].
    + rewrite (Hasym _ _ Hn1) in Hn2. discriminate.
    + rewrite En2, Hirr in Hn1. discriminate.
  - split; [assumption |].
    destruct Hn2 as [Hn2 | (_ & Hg2)].
    + rewrite En, Hirr in Hn2. discriminate.
    + destruct Hg1 as [Hg1 | Eg]; [| assumption].
      destruct Hg2 as [Hg2 | Eg2]; [| now symmetry].
      rewrite (Hasym _ _ Hg1) in Hg2. discriminate.
Qed.


(** ** The best depot *)







(** ** The example Country, run *)

Lemma distance_from_origin (a b : Location.t) :
  Location.r a = 0 -> 0 <= Location.r b ->
  LocationOps.distance_to a (PyLoc b) = Ok (Location.r b).
Proof.
  intros Ha Hb. unfold LocationOps.distance_to. rewrite Ha.
  replace (0 ^ 2 + Location.r b ^ 2
           - 2 * 0 * Location.r b * cos (Location.theta a - Location.theta b))
    with (Location.r b * Location.r b) by ring.
  rewrite py_sqrt_ok by now apply Rmult_le_pos.
  now rewrite sqrt_square.
Qed.

Lemma same_region_time (c : Country.t) (a b : Location.t) (d : R) :
  LocationOps.contains a (Country.all_locations c) = true ->
  LocationOps.contains b (Country.all_locations c) = true ->
  Location.region a = Location.region b ->
  LocationOps.distance_to a (PyLoc b) = Ok d -> 0 <= d ->
  Country.travel_time c a b = Ok (d / default_speed / 3600).
Proof.
  intros Ha Hb Hreg Hd Hpos. unfold Country.travel_time.
  rewrite Ha, Hb, Hd, Hreg, String.eqb_refl. simpl.
  rewrite (travel_time_ok _ Hpos (or_introl eq_refl) default_speed_pos).
  f_equal. unfold default_speed. field_simplify; lra.
Qed.

Lemma ex_time_out (d x : Location.t) :
  In d [ex_depot; ex_depot2] -> In x [ex_a; ex_b] ->
  Country.travel_time ex_land d x = Ok (3 / default_speed / 3600).
Proof.
  intros Hd Hx.
  assert (Hr : Location.r x = 3) by (destruct Hx as [<- | [<- | []]]; reflexivity).
  rewrite <- Hr. apply same_region_time.
  - destruct Hd as [<- | [<- | []]]; reflexivity.
  - destruct Hx as [<- | [<- | []]]; reflexivity.
  - destruct Hd as [<- | [<- | []]]; destruct Hx as [<- | [<- | []]]; reflexivity.
  - apply distance_from_origin; [| lra].
    destruct Hd as [<- | [<- | []]]; reflexivity.
  - lra.
Qed.

Lemma ex_time_back (x d : Location.t) :
  In x [ex_a; ex_b] -> In d [ex_depot; ex_depot2] ->
  Country.travel_time ex_land x d = Ok (3 / default_speed / 3600).
Proof.
  intros Hx Hd.
  assert (Hr : Location.r x = 3) by (destruct Hx as [<- | [<- | []]]; reflexivity).
  rewrite <- Hr. apply same_region_time.
  - destruct Hx as [<- | [<- | []]]; reflexivity.
  - destruct Hd as [<- | [<- | []]]; reflexivity.
  - destruct Hd as [<- | [<- | []]]; destruct Hx as [<- | [<- | []]]; reflexivity.
  - rewrite distance_to_sym. apply distance_from_origin; [| lra].
    destruct Hd as [<- | [<- | []]]; reflexivity.
  - lra.
Qed.

Lemma ex_time_a_b :
  Country.travel_time ex_land ex_a ex_b = Ok (0 / default_speed / 3600).
Proof.
  apply same_region_time; try reflexivity.
  now apply distance_to_same_place.
Qed.

(** The test of ties: of two candidates at the same travel time, given with
    B first, A is chosen. *)
Lemma fastest_trip_from_tie (d : Location.t) :
  In d [ex_depot; ex_depot2] ->
  Country.fastest_trip_from ex_land d
    (Some [Country.CLoc ex_b; Country.CLoc ex_a])
  = Ok (Some (ex_a, 3 / default_speed / 3600)).
Proof.
  intros Hd. unfold Country.fastest_trip_from.
  change (Country.collect ex_land [Country.CLoc ex_b; Country.CLoc ex_a] [])
    with (Ok (A := list Location.t) [ex_b; ex_a]).
  unfold bind at 1.
  assert (Hdis : LocSet.discard d [ex_b; ex_a] = [ex_b; ex_a])
    by (destruct Hd as [<- | [<- | []]]; reflexivity).
  rewrite Hdis. unfold Country.trip_times.
  rewrite (@ex_time_out d ex_b), (@ex_time_out d ex_a) by (simpl; auto).
  simpl bind. cbv iota.
  unfold py_sorted, fold_right, insert, Country.trip_lt, Country.trip_key,
    triple_lt, tuple_lt. simpl fst. simpl snd.
  rewrite (proj2 (Reqb_true _ _) eq_refl). reflexivity.
Qed.

Lemma fastest_trip_from_a :
  Country.fastest_trip_from ex_land ex_a (Some [Country.CLoc ex_b])
  = Ok (Some (ex_b, 0 / default_speed / 3600)).
Proof.
  unfold Country.fastest_trip_from.
  change (Country.collect ex_land [Country.CLoc ex_b] [])
    with (Ok (A := list Location.t) [ex_b]).
  simpl bind. change (LocSet.discard ex_a [ex_b]) with [ex_b].
  cbv iota. unfold Country.trip_times. rewrite ex_time_a_b. reflexivity.
Qed.

(** The test of the tour: from either depot the tour goes to A, then to B,
    which lies at the same place, and back; it takes 6 metres' worth of time. *)
Lemma nn_tour_example (d : Location.t) :
  In d [ex_depot; ex_depot2] ->
  exists total,
    Country.nn_tour ex_land d = Ok ([d; ex_a; ex_b; d], total)
    /\ total = 1 / 2850.
Proof.
  intros Hd. unfold Country.nn_tour.
  assert (Hc : LocationOps.contains d (Country.depots ex_land) = true)
    by (destruct Hd as [<- | [<- | []]]; reflexivity).
  rewrite Hc. simpl negb. cbv iota.
  change (Nat.eqb (Country.n_settlements ex_land) 0) with false. cbv iota.
  change (LocSet.of_list (Country.settlements ex_land)) with [ex_b; ex_a].
  simpl List.length. simpl Country.nn_loop.
  rewrite (fastest_trip_from_tie Hd). simpl bind.
  change (LocSet.remove ex_a [ex_b; ex_a]) with (Some [ex_b]). cbv iota.
  simpl Country.unvisited. simpl Country.current. cbv iota.
  rewrite fastest_trip_from_a. simpl bind.
  change (LocSet.remove ex_b [ex_b]) with (Some (@nil Location.t)). cbv iota.
  simpl bind. simpl Country.current.
  rewrite (@ex_time_back ex_b d) by (simpl; auto). simpl bind.
  eexists. split; [reflexivity |]. simpl. unfold default_speed. lra.
Qed.

(** The test of equal tours: both depots give the same tour time, and the
    one whose name comes first is returned, though it is stored second. *)
Lemma best_depot_site_tie (display : bool) :
  Country.best_depot_site ex_land display = Ok (Some ex_depot).
Proof.
  unfold Country.best_depot_site.
  change (Country.depots ex_land) with [ex_depot2; ex_depot]. cbv iota.
  change (py_sorted Country.depot_lt [ex_depot2; ex_depot])
    with [ex_depot; ex_depot2].
  destruct (@nn_tour_example ex_depot) as (t1 & E1 & H1); [simpl; auto |].
  destruct (@nn_tour_example ex_depot2) as (t2 & E2 & H2); [simpl; auto |].
  simpl Country.best_loop. rewrite E1. simpl bind. simpl Country.improves. cbv iota.
  rewrite E2. simpl bind. simpl Country.improves.
  assert (H : Rltb t2 t1 = false) by (apply Rltb_false; lra).
  rewrite H. reflexivity.
Qed.

Lemma fastest_trip_from_bad_index :
  Country.fastest_trip_from ex_land ex_depot (Some [Country.CIdx 10])
  = Raise IndexError.
Proof. reflexivity. Qed.

Lemma nn_tour_no_settlement :
  Country.nn_tour (Country.mk [ex_depot]) ex_depot = Ok ([ex_depot; ex_depot], 0).
Proof. reflexivity. Qed.

(** [int] truncates towards zero. *)
Lemma py_int_truncates (x : R) :
  (0 <= x -> IZR (py_int (NFloat x)) <= x < IZR (py_int (NFloat x)) + 1)
  /\ (x < 0 -> x <= IZR (py_int (NFloat x)) < x + 1).
Proof.
  unfold py_int. destruct (Rle_dec 0 x) as [H | H]; split; intros H'; try lra.
  - destruct (base_Int_part x). lra.
  - destruct (base_Int_part (- x)). rewrite opp_IZR. lra.
Qed.

(** ** The theorems at the example Country *)





Lemma Country_init_duplicates_witness :
  has_equal_pair [ex_home; ex_moved]
  /\ Country.init [ex_home; ex_moved] = Raise ValueError
  /\ exists c, Country.init ex_places = Ok c
               /\ Country.all_locations c = ex_places
               /\ List.length (Country.all_locations c) = List.length ex_places.
Proof.
  assert (H : has_equal_pair [ex_home; ex_moved]).
  { exists 0%nat, 1%nat, ex_home, ex_moved. repeat split. lia. }
  split; [exact H |]. split.
  - apply (proj1 (Country_init_duplicates [ex_home; ex_moved])). exact H.
  - apply (proj2 (Country_init_duplicates ex_places)).
    intros D. apply distinct_false_pair in D. discriminate.
Defined.

(** ** The order in which a set is iterated does not matter

    Python iterates a set in an order of its own.  The choice made by
    [fastest_trip_from] is the same for every order: the keys of the trips to
    distinct Locations are distinct, so [sorted] has one possible first
    element. *)
Lemma trip_choice_order_free (c : Country.t) (cur : Location.t)
    (l l' : list Location.t) (ts ts' : list (Location.t * R)) :
  distinct l = true -> Permutation l l' ->
  Country.trip_times c cur l = Ok ts -> Country.trip_times c cur l' = Ok ts' ->
  hd_error (py_sorted Country.trip_lt ts) = hd_error (py_sorted Country.trip_lt ts').
Proof.
  intros D P E E'.
  destruct (trip_times_spec c cur l) as (ts0 & E0 & H).
  destruct (trip_times_spec c cur l') as (ts0' & E0' & H').
  assert (ts0 = ts) by congruence. assert (ts0' = ts') by congruence. subst.
  assert (Hsame : forall p, In p ts <-> In p ts').
  { intros [x t]. rewrite H, H'. split; intros [Hx Ht]; split; try assumption.
    - now apply (Permutation_in x P).
    - now apply (Permutation_in x (Permutation_sym P)). }
  destruct (strict_total_key Country.trip_key triple_lt_strict_total)
    as [Hasym Hneg].
  destruct (py_sorted Country.trip_lt ts) as [| h rest] eqn:Es;
    destruct (py_sorted Country.trip_lt ts') as [| h' rest'] eqn:Es'.
  - reflexivity.
  - apply py_sorted_nil in Es. subst.
    destruct (py_sorted_head Country.trip_lt Hasym Hneg ts' Es') as [Hin _].
    apply Hsame in Hin. contradiction.
  - apply py_sorted_nil in Es'. subst.
    destruct (py_sorted_head Country.trip_lt Hasym Hneg ts Es) as [Hin _].
    apply Hsame in Hin. contradiction.
  - destruct (py_sorted_head Country.trip_lt Hasym Hneg ts Es) as [Hin Hmin].
    destruct (py_sorted_head Country.trip_lt Hasym Hneg ts' Es') as [Hin' Hmin'].
    simpl. f_equal.
    pose proof (Hmin h' (proj2 (Hsame h') Hin')) as L1.
    pose proof (Hmin' h (proj1 (Hsame h) Hin)) as L2.
    destruct (key_le_antisym (trip_lt_false_key_le _ _ L1)
                (trip_lt_false_key_le _ _ L2)) as [Et Eq].
    destruct h as [x t], h' as [x' t']. simpl in Et, Eq. subst t'.
    apply H in Hin. apply H' in Hin'. destruct Hin as [Hx _], Hin' as [Hx' _].
    apply (Permutation_in x' (Permutation_sym P)) in Hx'.
    now rewrite (distinct_eqb_eq l x x' D Hx Hx' Eq).
Qed.

(** ** The examples of the test suite *)

Lemma travel_time_examples :
  travel_time (3600 * 4.75) 0 (NFloat 3) 4.75 = Ok 1
  /\ travel_time (3600 * 4.75) 0 (NInt 0) (4.75 / 2) = Ok 2
  /\ travel_time (3600 * 4.75) 1 (NInt 20) 4.75 = Ok 3
  /\ travel_time 1000 1 (NInt 0) 4.75 = Ok (1000 / (3600 * 4.75) * (1 + 1 / 10))
  /\ travel_time (-100) 0 (NInt 3) 4.75 = Raise ValueError
  /\ travel_time 1000 1.5 (NInt 3) 4.75 = Raise ValueError.
Proof.
  repeat split.
  - rewrite travel_time_ok; [| lra | now left | lra]. f_equal. field. lra.
  - rewrite travel_time_ok; [| lra | now left | lra]. f_equal. unfold py_int.
    rewrite ?Z.max_l, ?Z.max_r by lia. field. lra.
  - rewrite travel_time_ok; [| lra | now right | lra]. f_equal. unfold py_int.
    rewrite ?Z.max_l, ?Z.max_r by lia. field. lra.
  - rewrite travel_time_ok; [| lra | now right | lra]. f_equal. unfold py_int.
    rewrite ?Z.max_l, ?Z.max_r by lia. field. lra.
  - unfold travel_time. destruct (Rlt_dec (-100) 0); [reflexivity | lra].
  - unfold travel_time. destruct (Rlt_dec 1000 0); [lra |].
    assert (H0 : Reqb 1.5 0 = false) by (apply Reqb_false; lra).
    assert (H1 : Reqb 1.5 1 = false) by (apply Reqb_false; lra).
    now rewrite H0, H1.
Qed.

Lemma distance_to_examples :
  LocationOps.distance_to (Location.mk "C" "Region" 3 0 false)
    (PyLoc (Location.mk "D" "Region" 4 0 false)) = Ok 1
  /\ LocationOps.distance_to (Location.mk "E" "Region" 3 0 false)
       (PyLoc (Location.mk "F" "Region" 3 PI false)) = Ok 6.
Proof.
  unfold LocationOps.distance_to; simpl Location.r; simpl Location.theta. split.
  - replace (0 - 0) with 0 by ring. rewrite cos_0.
    replace (3 ^ 2 + 4 ^ 2 - 2 * 3 * 4 * 1) with (1 * 1) by ring.
    rewrite py_sqrt_ok by lra. now rewrite sqrt_square by lra.
  - replace (0 - PI) with (- PI) by ring. rewrite cos_neg, cos_PI.
    replace (3 ^ 2 + 3 ^ 2 - 2 * 3 * 3 * -1) with (6 * 6) by ring.
    rewrite py_sqrt_ok by lra. now rewrite sqrt_square by lra.
Qed.

(** * Further properties of the code *)

(** ** The cost model *)







Lemma py_int_floor (x : R) (k : Z) :
  (0 <= k)%Z -> IZR k <= x < IZR k + 1 -> py_int (NFloat x) = k.
Proof.
  intros Hk [Hlo Hhi]. unfold py_int.
  assert (0 <= IZR k) by now apply IZR_le.
  destruct (Rle_dec 0 x); [| lra].
  symmetry. apply Int_part_spec. lra.
Qed.

Lemma py_int_ceil (x : R) (k : Z) :
  (k <= 0)%Z -> IZR k - 1 < x <= IZR k -> x < 0 -> py_int (NFloat x) = k.
Proof.
  intros Hk [Hlo Hhi] Hneg. unfold py_int.
  destruct (Rle_dec 0 x); [lra |].
  assert (E : (- k)%Z = Int_part (- x)).
  { apply Int_part_spec. rewrite opp_IZR. lra. }
  rewrite <- E. lia.
Qed.

(** X4: the population is truncated towards zero before it is used: a
    fractional population between [k] and [k + 1], [k >= 0], counts as [k],
    and every population below 1, negative ones included, counts as 1. *)
Theorem travel_time_truncates_population (distance flag : R) (x : R) (k : Z)
    (speed : R) :
  (0 <= k)%Z -> IZR k <= x < IZR k + 1 ->
  travel_time distance flag (NFloat x) speed
  = travel_time distance flag (NInt k) speed
  /\ forall y, y < 1 ->
       travel_time distance flag (NFloat y) speed
       = travel_time distance flag (NInt 1) speed.
Proof.
  intros Hk Hx. split.
  - unfold travel_time. now rewrite (py_int_floor Hk Hx).
  - intros y Hy. unfold travel_time.
    assert (E : Z.max 1 (py_int (NFloat y)) = Z.max 1 (py_int (NInt 1))).
    { simpl py_int at 2. destruct (Rle_dec 0 y) as [Hpos | Hneg].
      - rewrite (@py_int_floor y 0) by (simpl; lra || lia). reflexivity.
      - unfold py_int. destruct (Rle_dec 0 y); [contradiction |].
        pose proof (base_Int_part (- y)) as [Hb _].
        assert (0 <= IZR (Int_part (- y))).
        { destruct (Z_lt_le_dec (Int_part (- y)) 0) as [Hlt | Hge];
            [| now apply IZR_le].
          pose proof (base_Int_part (- y)) as [_ Hb'].
          apply IZR_lt in Hlt. assert (IZR (Int_part (- y)) <= -1).
          { apply IZR_le. apply lt_IZR in Hlt. lia. }
          lra. }
        assert (0 <= Int_part (- y))%Z by now apply le_IZR.
        lia. }
    now rewrite E.
Qed.

Lemma travel_time_truncates_population_witness :
  travel_time 1000 1 (NFloat 2.5) 4.75 = travel_time 1000 1 (NInt 2) 4.75.
Proof.
  apply (@travel_time_truncates_population 1000 1 2.5 2 4.75).
  - lia.
  - lra.
Defined.

(** ** Construction of a Location *)

Lemma Location_init_inv (parse : string -> option R)
    (name region r theta depot : pyval) (l : Location.t) (w : list string) :
  Location_init parse name region r theta depot = Ok (l, w) ->
  exists n g x y d,
    name = PyStr n /\ region = PyStr g /\ depot = PyBool d
    /\ py_float parse r = Ok x /\ py_float parse theta = Ok y
    /\ 0 <= x /\ - PI <= y <= PI
    /\ l = Location.mk (proper n) (proper g) x y d
    /\ List.length w
       = ((if String.eqb (proper n) n then 0 else 2)
          + (if String.eqb (proper g) g then 0 else 2))%nat.
Proof.
  unfold Location_init. destruct depot as [ | d | | | | ]; try discriminate.
  rewrite !reraise_ValueError_id.
  destruct (py_float parse r) as [x | |]; try discriminate; simpl.
  destruct (Rltb x 0) eqn:Hx; try discriminate.
  destruct (py_float parse theta) as [y | |]; try discriminate; simpl.
  destruct (Rltb y (- PI) || Rltb PI y) eqn:Hy; try discriminate.
  destruct name as [ | | | | n | ]; try discriminate.
  destruct region as [ | | | | g | ]; try discriminate.
  intros [= <- <-]. exists n, g, x, y, d.
  apply Rltb_false in Hx. apply orb_false_iff in Hy.
  destruct Hy as [H1%Rltb_false H2%Rltb_false].
  repeat (split; [reflexivity || lra |]).
  rewrite length_app.
  destruct (String.eqb (proper n) n), (String.eqb (proper g) g); reflexivity.
Qed.



(** X6: construction warns exactly when normalisation changes the name or
    the region: two warnings for each of the two that is changed, none when
    both were already in normal form. *)
Theorem Location_init_warnings (parse : string -> option R)
    (name region r theta depot : pyval) (l : Location.t) (w : list string) :
  Location_init parse name region r theta depot = Ok (l, w) ->
  exists n g,
    name = PyStr n /\ region = PyStr g
    /\ List.length w
       = ((if String.eqb (Location.name l) n then 0 else 2)
          + (if String.eqb (Location.region l) g then 0 else 2))%nat
    /\ (w = [] <-> Location.name l = n /\ Location.region l = g).
Proof.
  intros H. destruct (Location_init_inv _ _ _ _ _ _ H)
    as (n & g & x & y & d & -> & -> & -> & _ & _ & _ & _ & -> & Hw).
  exists n, g. simpl. split; [reflexivity |]. split; [reflexivity |].
  split; [assumption |].
  destruct (String.eqb_spec (proper n) n) as [En | En];
    destruct (String.eqb_spec (proper g) g) as [Eg | Eg];
    simpl in Hw; split; intros Hq; try (now split);
    try (rewrite Hq in Hw; discriminate); try (destruct Hq; contradiction).
  now apply length_zero_iff_nil.
Qed.


Lemma Location_init_warnings_witness :
  exists l w,
    Location_init parse_decimal (PyStr "  riverWOOD") (PyStr "whiterun   hold")
      (PyStr "100") (PyFloat 0) (PyBool false) = Ok (l, w)
    /\ exists n g,
         PyStr "  riverWOOD" = PyStr n /\ PyStr "whiterun   hold" = PyStr g
         /\ List.length w
            = ((if String.eqb (Location.name l) n then 0 else 2)
               + (if String.eqb (Location.region l) g then 0 else 2))%nat
         /\ (w = [] <-> Location.name l = n /\ Location.region l = g).
Proof.
  destruct Location_init_normalises as (w & E & _).
  eexists. exists w. split; [exact E |].
  exact (Location_init_warnings _ _ _ _ _ _ E).
Defined.

(** ** Normalisation of names *)

Lemma is_space_upper (c : ascii) : is_space (upper c) = is_space c.
Proof. destruct c as [[] [] [] [] [] [] [] []]; reflexivity. Qed.

Lemma is_space_lower (c : ascii) : is_space (lower c) = is_space c.
Proof. destruct c as [[] [] [] [] [] [] [] []]; reflexivity. Qed.

Lemma upper_upper (c : ascii) : upper (upper c) = upper c.
Proof. destruct c as [[] [] [] [] [] [] [] []]; reflexivity. Qed.

Lemma lower_lower (c : ascii) : lower (lower c) = lower c.
Proof. destruct c as [[] [] [] [] [] [] [] []]; reflexivity. Qed.

Lemma has_blank_lower (w : string) : has_blank (str_map lower w) = has_blank w.
Proof.
  induction w as [| c w IH]; simpl; [reflexivity |].
  now rewrite is_space_lower, IH.
Qed.

Lemma is_word_capitalize (w : string) : is_word (capitalize w) = is_word w.
Proof.
  destruct w as [| c w]; simpl; [reflexivity |].
  now rewrite is_space_upper, has_blank_lower.
Qed.

Lemma str_map_lower_twice (w : string) :
  str_map lower (str_map lower w) = str_map lower w.
Proof.
  induction w as [| c w IH]; simpl; [reflexivity |].
  now rewrite lower_lower, IH.
Qed.

Lemma capitalize_twice (w : string) : capitalize (capitalize w) = capitalize w.
Proof.
  destruct w as [| c w]; simpl; [reflexivity |].
  now rewrite upper_upper, str_map_lower_twice.
Qed.

Lemma append_assoc (a b c : string) : ((a ++ b) ++ c = a ++ (b ++ c))%string.
Proof. induction a as [| x a IH]; simpl; [reflexivity | now rewrite IH]. Qed.

Lemma append_empty (a : string) : (a ++ EmptyString)%string = a.
Proof. induction a as [| x a IH]; simpl; [reflexivity | now rewrite IH]. Qed.

Lemma has_blank_append (a b : string) :
  has_blank (a ++ b)%string = has_blank a || has_blank b.
Proof.
  induction a as [| x a IH]; simpl; [reflexivity |].
  now rewrite IH, orb_assoc.
Qed.

Lemma flush_words (word : string) (rest : list string) :
  has_blank word = false -> Forall (fun w => is_word w = true) rest ->
  Forall (fun w => is_word w = true) (flush word rest).
Proof.
  intros Hw Hrest. destruct word as [| c word]; simpl; [assumption |].
  constructor; [| assumption]. simpl in *. now rewrite Hw.
Qed.

(** [split] yields words. *)
Lemma split_words (s word : string) :
  has_blank word = false -> Forall (fun w => is_word w = true) (split s word).
Proof.
  revert word. induction s as [| c s IH]; intros word Hw; simpl.
  - now apply flush_words.
  - destruct (is_space c) eqn:Hc.
    + apply flush_words; [assumption |]. now apply IH.
    + apply IH. rewrite has_blank_append. simpl. now rewrite Hw, Hc.
Qed.

Lemma split_word (w rest acc : string) :
  has_blank w = false ->
  split (w ++ rest)%string acc = split rest (acc ++ w)%string.
Proof.
  revert acc. induction w as [| c w IH]; intros acc Hw; simpl.
  - now rewrite append_empty.
  - simpl in Hw. apply orb_false_iff in Hw. destruct Hw as [Hc Hw].
    rewrite Hc, (IH _ Hw), append_assoc. reflexivity.
Qed.

Lemma split_blank (c : ascii) (s acc : string) :
  is_space c = true ->
  split (String c s) acc = flush acc (split s EmptyString).
Proof. intros H. simpl. now rewrite H. Qed.

(** Joining words with one blank and splitting again gives the words back. *)
Lemma split_join (ws : list string) :
  Forall (fun w => is_word w = true) ws ->
  split (String.concat " " ws) EmptyString = ws.
Proof.
  induction 1 as [| w ws Hw Hws IH]; [reflexivity |].
  assert (Hb : has_blank w = false /\ w <> EmptyString).
  { destruct w; [discriminate |]. unfold is_word in Hw.
    apply negb_true_iff in Hw. split; [assumption | discriminate]. }
  destruct Hb as [Hb Hne].
  destruct ws as [| w2 ws].
  - simpl. rewrite <- (append_empty w) at 1. rewrite split_word by assumption.
    simpl. destruct w; [contradiction | reflexivity].
  - change (String.concat " " (w :: w2 :: ws))
      with (w ++ " " ++ String.concat " " (w2 :: ws))%string.
    rewrite split_word by assumption.
    change (" " ++ String.concat " " (w2 :: ws))%string
      with (String " "%char (String.concat " " (w2 :: ws))).
    rewrite split_blank by reflexivity.
    rewrite IH. simpl. destruct w; [contradiction | reflexivity].
Qed.

Lemma proper_words (s : string) :
  split (proper s) EmptyString = map capitalize (split s EmptyString).
Proof.
  unfold proper. apply split_join.
  pose proof (split_words s EmptyString eq_refl) as H.
  induction H as [| w ws Hw _ IH]; simpl; constructor; [| assumption].
  now rewrite is_word_capitalize.
Qed.

Lemma proper_twice (s : string) : proper (proper s) = proper s.
Proof.
  unfold proper at 1. rewrite proper_words, map_map.
  unfold proper. f_equal. apply map_ext. apply capitalize_twice.
Qed.

(** X7: normalisation keeps the words of the text, each capitalised, and puts
    one blank between them: splitting the normalised text gives the
    capitalised words of the original; normalising twice is normalising
    once. *)
Theorem proper_normal_form (s : string) :
  split (proper s) EmptyString = map capitalize (split s EmptyString)
  /\ proper (proper s) = proper s
  /\ Forall (fun w => is_word w = true) (split s EmptyString).
Proof.
  split; [apply proper_words |]. split; [apply proper_twice |].
  now apply split_words.
Qed.



(** ** The depot flag after construction *)

(** X9: assigning to [depot] raises TypeError for anything but a boolean;
    assigning a boolean changes nothing but the flag: the Location stays
    equal to what it was, with the same hash, so that it is found in the same
    sequences, and every travel time from it and to it stays the same. *)
Theorem Location_set_depot_keeps_identity (str_hash : string -> Z)
    (self : Location.t) (value : pyval) :
  (is_bool value = false -> Location_set_depot self value = Raise TypeError)
  /\ (forall b, value = PyBool b ->
      exists self',
        Location_set_depot self value = Ok self'
        /\ Location.depot self' = b
        /\ Location.settlement self' = negb b
        /\ LocationOps.equals self (PyLoc self') = true
        /\ Location_hash str_hash self' = Location_hash str_hash self
        /\ (forall seq, LocationOps.contains self' seq = LocationOps.contains self seq)
        /\ (forall c other,
              Country.travel_time c self' other = Country.travel_time c self other
              /\ Country.travel_time c other self' = Country.travel_time c other self)).
Proof.
  split.
  - destruct value; simpl; intros H; try reflexivity; discriminate.
  - intros b ->. eexists. split; [reflexivity |].
    destruct self as [n g x y d]; simpl.
    split; [reflexivity |]. split; [reflexivity |].
    assert (E : LocationOps.eqb (Location.mk n g x y b) (Location.mk n g x y d) = true)
      by now apply loc_eqb_iff.
    split; [unfold LocationOps.equals; simpl; now apply loc_eqb_iff |].
    split; [reflexivity |].
    assert (Hc : forall seq,
              LocationOps.contains (Location.mk n g x y b) seq
              = LocationOps.contains (Location.mk n g x y d) seq)
      by (intros seq; now apply contains_eqb).
    split; [exact Hc |].
    intros c other. unfold Country.travel_time. rewrite !Hc. split; reflexivity.
Qed.

Lemma Location_set_depot_keeps_identity_witness :
  is_bool (PyInt 1) = false
  /\ Location_set_depot ex_a (PyInt 1) = Raise TypeError.
Proof.
  split; [reflexivity |].
  apply (proj1 (Location_set_depot_keeps_identity
                  (fun s => Z.of_nat (String.length s)) ex_a (PyInt 1))).
  reflexivity.
Defined.

(** ** Distances *)












(** ** The views of a Country *)

Lemma filter_partition (A : Type) (f : A -> bool) (l : list A) :
  Permutation (filter (fun x => negb (f x)) l ++ filter f l) l.
Proof.
  induction l as [| x l IH]; simpl; [reflexivity |].
  destruct (f x); simpl.
  - rewrite <- Permutation_middle. now constructor.
  - now constructor.
Qed.

(** X13: the settlements and the depots of a Country split its Locations:
    together they are a rearrangement of all of them, the two counts add up
    to the number of Locations, a Location is a settlement exactly when its
    depot flag is off, and no settlement equals a depot. *)
Theorem Country_views_partition (locs : list Location.t) (c : Country.t) :
  Country.init locs = Ok c ->
  Permutation (Country.settlements c ++ Country.depots c) (Country.all_locations c)
  /\ (Country.n_settlements c + Country.n_depots c
      = List.length (Country.all_locations c))%nat
  /\ (forall x, In x (Country.settlements c)
                <-> In x (Country.all_locations c) /\ Location.settlement x = true)
  /\ (forall x, In x (Country.depots c)
                <-> In x (Country.all_locations c) /\ Location.depot x = true)
  /\ (forall x, In x (Country.settlements c) ->
                LocationOps.contains x (Country.depots c) = false).
Proof.
  intros Hinit. pose proof (init_distinct locs Hinit) as D.
  assert (P : Permutation (Country.settlements c ++ Country.depots c)
                (Country.all_locations c))
    by apply (filter_partition Location.depot).
  split; [exact P |]. split.
  - unfold Country.n_settlements, Country.n_depots.
    rewrite <- length_app. now apply Permutation_length.
  - split; [| split].
    + intros x. unfold Country.settlements, Location.settlement. apply filter_In.
    + intros x. unfold Country.depots. apply filter_In.
    + intros x Hx. apply contains_false. intros e He.
      unfold Country.depots in He. apply filter_In in He. destruct He as [He Hd].
      unfold Country.settlements in Hx. apply filter_In in Hx.
      destruct Hx as [Hx Hs]. apply negb_true_iff in Hs.
      apply not_true_is_false. intros E.
      assert (e = x) by (apply (distinct_eqb_eq _ e x D); assumption).
      subst. congruence.
Qed.

Lemma Country_views_partition_witness :
  Country.init ex_places = Ok ex_land
  /\ Permutation (Country.settlements ex_land ++ Country.depots ex_land)
       (Country.all_locations ex_land)
  /\ (Country.n_settlements ex_land + Country.n_depots ex_land
      = List.length (Country.all_locations ex_land))%nat.
Proof.
  split; [reflexivity |].
  destruct (@Country_views_partition ex_places ex_land eq_refl) as (P & N & _).
  split; [exact P | exact N].
Defined.

(** ** Travel time inside a Country, further *)

Lemma Country_travel_time_not_member (c : Country.t) (a b : Location.t) :
  LocationOps.contains a (Country.all_locations c) = false
  \/ LocationOps.contains b (Country.all_locations c) = false ->
  Country.travel_time c a b = Raise ValueError.
Proof.
  unfold Country.travel_time. intros [H | H].
  - now rewrite H.
  - rewrite H. now destruct (LocationOps.contains a _).
Qed.






(** ** The fastest trip, further *)

Lemma resolve_none_iff (c : Country.t) (cands : list Country.candidate) :
  resolve c cands = None
  <-> exists i, In (Country.CIdx i) cands
                /\ (i < 0 \/ Z.of_nat (Country.n_settlements c) <= i)%Z.
Proof.
  unfold Country.n_settlements.
  induction cands as [| [l | i] cands IH]; simpl.
  - split; [discriminate | intros (i & [] & _)].
  - destruct (resolve c cands) as [locs |]; simpl.
    + split; [discriminate |]. intros (i & [Hi | Hi] & Hr); [discriminate |].
      destruct IH as [_ IH]. discriminate IH. eauto.
    + split; [| reflexivity]. intros _. destruct IH as [IH _].
      destruct (IH eq_refl) as (i & Hi & Hr). eauto.
  - destruct (Z.leb_spec 0 i) as [H0 | H0];
      destruct (Z.ltb_spec i (Z.of_nat (List.length (Country.settlements c))))
        as [H1 | H1]; simpl;
      try (split; [intros _; exists i; split; [now left | lia] | reflexivity]).
    destruct (nth_error (Country.settlements c) (Z.to_nat i)) eqn:En.
    + destruct (resolve c cands) as [locs |]; simpl.
      * split; [discriminate |]. intros (j & [Hj | Hj] & Hr).
        -- injection Hj as <-. lia.
        -- destruct IH as [_ IH]. discriminate IH. eauto.
      * split; [| reflexivity]. intros _. destruct IH as [IH _].
        destruct (IH eq_refl) as (j & Hj & Hr). eauto.
    + apply nth_error_None in En. lia.
Qed.


Lemma fastest_trip_from_not_IndexError (c : Country.t) (cur : Location.t)
    (cands : list Country.candidate) (locs : list Location.t) :
  resolve c cands = Some locs ->
  Country.fastest_trip_from c cur (Some cands) <> Raise IndexError.
Proof.
  intros H.
  destruct (fastest_trip_from_char c cur cands H)
    as [[_ E] | (best & tb & E & _)]; rewrite E; discriminate.
Qed.



(** X17: from a current Location that is not a member of the Country no trip
    has a travel time, so that [fastest_trip_from] returns [(None, None)]
    whatever the candidates, if their indices are in range. *)
Theorem fastest_trip_from_stranger (c : Country.t) (cur : Location.t)
    (cands : list Country.candidate) (locs : list Location.t) :
  LocationOps.contains cur (Country.all_locations c) = false ->
  resolve c cands = Some locs ->
  Country.fastest_trip_from c cur (Some cands) = Ok None.
Proof.
  intros Hcur Hres.
  destruct (fastest_trip_from_char c cur cands Hres)
    as [[_ E] | (best & tb & _ & _ & Et & _)]; [assumption |].
  rewrite Country_travel_time_not_member in Et by now left. discriminate.
Qed.

Lemma fastest_trip_from_stranger_witness :
  Country.fastest_trip_from ex_land ex_home
    (Some [Country.CIdx 0; Country.CLoc ex_a]) = Ok None.
Proof.
  apply (@fastest_trip_from_stranger ex_land ex_home
           [Country.CIdx 0; Country.CLoc ex_a] [ex_b; ex_a]); reflexivity.
Defined.

(** X18: [fastest_trip_from] raises IndexError exactly when a candidate is an
    index below 0 or not below the number of settlements (negative indices
    do not count from the end); an index in range stands for the settlement
    at that position: replacing the indices by those settlements gives the
    same result. *)
Theorem fastest_trip_from_indices (c : Country.t) (cur : Location.t)
    (cands : list Country.candidate) :
  (Country.fastest_trip_from c cur (Some cands) = Raise IndexError
   <-> exists i, In (Country.CIdx i) cands
                 /\ (i < 0 \/ Z.of_nat (Country.n_settlements c) <= i)%Z)
  /\ (forall locs, resolve c cands = Some locs ->
      Country.fastest_trip_from c cur (Some cands)
      = Country.fastest_trip_from c cur (Some (map Country.CLoc locs)))
  /\ (forall i l, nth_error (Country.settlements c) i = Some l ->
      Country.fastest_trip_from c cur (Some [Country.CIdx (Z.of_nat i)])
      = Country.fastest_trip_from c cur (Some [Country.CLoc l])).
Proof.
  split; [| split].
  - rewrite <- resolve_none_iff. split.
    + intros H. destruct (resolve c cands) as [locs |] eqn:E; [| reflexivity].
      exfalso. exact (fastest_trip_from_not_IndexError c cur cands E H).
    + intros H. unfold Country.fastest_trip_from. now rewrite collect_resolve, H.
  - intros locs H. unfold Country.fastest_trip_from.
    now rewrite !collect_resolve, H, resolve_locs.
  - intros i l Hi. unfold Country.fastest_trip_from.
    rewrite !collect_resolve. simpl resolve.
    assert (Hlt : (i < List.length (Country.settlements c))%nat).
    { apply nth_error_Some. congruence. }
    destruct (Z.leb_spec 0 (Z.of_nat i)); [| lia].
    destruct (Z.ltb_spec (Z.of_nat i) (Z.of_nat (List.length (Country.settlements c))));
      [| lia].
    simpl. now rewrite Nat2Z.id, Hi.
Qed.

Lemma fastest_trip_from_indices_witness :
  Country.fastest_trip_from ex_land ex_depot (Some [Country.CIdx (Z.of_nat 1)])
  = Country.fastest_trip_from ex_land ex_depot (Some [Country.CLoc ex_a]).
Proof.
  apply (proj2 (proj2 (fastest_trip_from_indices ex_land ex_depot [])) 1%nat ex_a).
  reflexivity.
Defined.

(** ** The tour, further *)



Section TourTrace.
Variable c : Country.t.
Hypothesis c_distinct : distinct (Country.all_locations c) = true.



End TourTrace.







(** ** The best depot, further *)




(** ** Countries made of a part of a Country *)

Lemma filter_twice (A : Type) (f g : A -> bool) (l : list A) :
  (forall x, f x = true -> g x = true) -> filter g (filter f l) = filter f l.
Proof.
  intros H. induction l as [| x l IH]; simpl; [reflexivity |].
  destruct (f x) eqn:E; [| assumption]. simpl. now rewrite (H x E), IH.
Qed.

Lemma filter_none (A : Type) (f g : A -> bool) (l : list A) :
  (forall x, f x = true -> g x = false) -> filter g (filter f l) = [].
Proof.
  intros H. induction l as [| x l IH]; simpl; [reflexivity |].
  destruct (f x) eqn:E; [| assumption]. simpl. now rewrite (H x E), IH.
Qed.

(** X23: any selection of the Locations of a Country makes a Country again.
    The Country made of the settlements has no depot, so that
    [best_depot_site] raises ValueError on it; in the Country made of the
    depots the tour from each depot is the depot twice, with time 0. *)
Theorem Country_of_a_part (locs : list Location.t) (c : Country.t)
    (display : bool) :
  Country.init locs = Ok c ->
  (forall keep, Country.init (filter keep locs) = Ok (Country.mk (filter keep locs)))
  /\ (exists cs,
        Country.init (Country.settlements c) = Ok cs
        /\ Country.settlements cs = Country.settlements c
        /\ Country.best_depot_site cs display = Raise ValueError)
  /\ (exists cd,
        Country.init (Country.depots c) = Ok cd
        /\ Country.depots cd = Country.depots c
        /\ forall d, In d (Country.depots c) ->
                     Country.nn_tour cd d = Ok ([d; d], 0)).
Proof.
  intros Hinit. destruct (init_inv _ Hinit) as [-> D].
  split; [| split].
  - intros keep. apply init_ok_iff. now apply distinct_filter.
  - exists (Country.mk (Country.settlements (Country.mk locs))).
    split; [apply init_ok_iff; now apply distinct_filter |].
    unfold Country.best_depot_site, Country.depots, Country.settlements; simpl.
    split.
    + apply filter_twice. auto.
    + rewrite filter_none; [reflexivity |].
      intros x H. now apply negb_true_iff in H.
  - exists (Country.mk (Country.depots (Country.mk locs))).
    split; [apply init_ok_iff; now apply distinct_filter |].
    split.
    + unfold Country.depots; simpl. apply filter_twice. auto.
    + intros d Hd. unfold Country.nn_tour.
      assert (Hc : LocationOps.contains d
                     (Country.depots (Country.mk (Country.depots (Country.mk locs))))
                   = true).
      { apply contains_In. unfold Country.depots in *; simpl in *.
        rewrite filter_twice; auto. }
      rewrite Hc. simpl negb. cbv iota.
      unfold Country.n_settlements, Country.settlements, Country.depots; simpl.
      rewrite filter_none; [reflexivity |].
      intros x H. now rewrite H.
Qed.

Lemma Country_of_a_part_witness :
  exists cs,
    Country.init (Country.settlements ex_land) = Ok cs
    /\ Country.settlements cs = Country.settlements ex_land
    /\ Country.best_depot_site cs true = Raise ValueError.
Proof.
  exact (proj1 (proj2 (@Country_of_a_part ex_places ex_land true eq_refl))).
Defined.

(** ** The tour and the fastest trip *)


